(** * rx_profile_demo: the CC1101 profile selector

    A shallow embedding of [src/CC1101/rx_profile_demo.cpp].  The program
    is one function, [main], that scans its command-line arguments into four
    local variables, stores three of them into the driver's global slots,
    initialises the radio and dumps its registers.

    - C [int] is a [Z] kept in the signed 32-bit range, [uint8_t] a [Z] in
      [0, 256); the conversions are written out ([to_int], [to_uint8]).
    - A C string is a [string]: the characters before the terminating NUL.
    - Standard output and the calls into the [CC1100] driver are recorded, in
      program order, as a list of [event]s.  The driver is not part of this
      file: the result of [begin] is an oracle, a variable of the section. *)

From Stdlib Require Import ZArith List Bool Ascii String Lia.
From Stdlib Require Import DecimalString DecimalFacts DecimalPos DecimalN DecimalZ.
Import ListNotations.

Local Open Scope string_scope.
Local Open Scope Z_scope.

(** ** Machine integers *)

Definition INT_MIN : Z := - 2 ^ 31.
Definition INT_MAX : Z := 2 ^ 31 - 1.

(** [long] has 64 bits, as on the 64-bit systems the program is built for. *)
Definition LONG_MIN : Z := - 2 ^ 63.
Definition LONG_MAX : Z := 2 ^ 63 - 1.

(** Conversion to [int]: reduction modulo 2^32 into the signed range. *)
Definition to_int (z : Z) : Z := (z + 2 ^ 31) mod 2 ^ 32 - 2 ^ 31.

(** The cast [(uint8_t)]. *)
Definition to_uint8 (z : Z) : Z := z mod 256.

(** Conversion of an [int] to [unsigned int], as [%X] reads its argument. *)
Definition to_unsigned (z : Z) : Z := z mod 2 ^ 32.

(** ** The C library functions that [main] calls *)

Definition code (a : ascii) : Z := Z.of_N (N_of_ascii a).

(** [strcmp]: the difference of the first pair of characters that differ,
    as unsigned chars; the end of a string counts as the NUL character. *)
Fixpoint strcmp (s1 s2 : string) : Z :=
  match s1, s2 with
  | EmptyString, EmptyString => 0
  | EmptyString, String b _ => 0 - code b
  | String a _, EmptyString => code a
  | String a s1', String b s2' =>
      if code a =? code b then strcmp s1' s2' else code a - code b
  end.

(** No NUL character inside: what every argument the system passes is. *)
Fixpoint nul_free (s : string) : bool :=
  match s with
  | EmptyString => true
  | String a s' => negb (code a =? 0) && nul_free s'
  end.

Definition isspace (a : ascii) : bool :=
  (code a =? 32) || ((9 <=? code a) && (code a <=? 13)).

Definition isdigit (a : ascii) : bool :=
  (48 <=? code a) && (code a <=? 57).

Fixpoint skip_spaces (s : string) : string :=
  match s with
  | String a s' => if isspace a then skip_spaces s' else s
  | EmptyString => s
  end.

(** The digits at the head of [s], accumulated in base ten onto [acc]. *)
Fixpoint digits_value (s : string) (acc : Z) : Z :=
  match s with
  | String a s' =>
      if isdigit a then digits_value s' (10 * acc + (code a - 48)) else acc
  | EmptyString => acc
  end.

(** [strtol(s, NULL, 10)]: leading white space, an optional sign, then
    decimal digits up to the first character that is not one.  A string with
    no digits gives 0, and a number beyond the range of [long] gives
    [LONG_MAX] or [LONG_MIN]. *)
Definition strtol (s : string) : Z :=
  match skip_spaces s with
  | String "-" s' => Z.max LONG_MIN (- digits_value s' 0)
  | String "+" s' => Z.min LONG_MAX (digits_value s' 0)
  | s' => Z.min LONG_MAX (digits_value s' 0)
  end.

(** [atoi], which the C library defines as [(int) strtol(s, NULL, 10)]: the
    conversion to [int] keeps the low 32 bits of the [long].  Outside the
    [int] range ISO C leaves the result open; this is what the library the
    program links against does. *)
Definition atoi (s : string) : Z := to_int (strtol s).

(** *** Formatting, for [printf] *)

Definition nl : string := String "010" EmptyString.

(** [%d] *)
Definition fmt_d (z : Z) : string := NilZero.string_of_int (Z.to_int z).

Definition hex_digit (n : Z) : ascii :=
  ascii_of_N (Z.to_N (if n <? 10 then 48 + n else 55 + n)).

Fixpoint hex_digits (fuel : nat) (n : Z) (acc : string) : string :=
  match fuel with
  | O => acc
  | S fuel' =>
      let acc' := String (hex_digit (n mod 16)) acc in
      if n / 16 =? 0 then acc' else hex_digits fuel' (n / 16) acc'
  end.

(** [%02X]: upper-case hexadecimal of the argument read as [unsigned int],
    padded with a zero to two characters. *)
Definition fmt_02X (z : Z) : string :=
  let s := hex_digits 8 (to_unsigned z) EmptyString in
  if (String.length s <? 2)%nat then String "0" s else s.

(** ** What the program does to the outside *)

Inductive event : Type :=
| Printf (text : string)              (* text written to standard output *)
| RadioSetDebugLevel (level : Z)      (* radio.set_debug_level(level) *)
| StoreFreqSelect (v : Z)             (* cc1100_freq_select = v *)
| StoreModeSelect (v : Z)             (* cc1100_mode_select = v *)
| StoreChannelSelect (v : Z)          (* cc1100_channel_select = v *)
| RadioBegin (my_addr : Z)            (* radio.begin(my_addr) *)
| RadioShowRegisterSettings           (* radio.show_register_settings() *)
| RadioEnd.                           (* radio.end() *)

(** The driver's state that [main] has set by the time it calls [begin]. *)
Record driver_slots : Type := mkSlots {
  debug_level : Z;
  cc1100_freq_select : Z;
  cc1100_mode_select : Z;
  cc1100_channel_select : Z
}.

(** ** [usage] *)

Definition usage : list event :=
  [ Printf ("CC1101 RX Profile Demo" ++ nl);
    Printf ("Usage: rx_profile_demo [-mTPMS|-mIoT|-mGFSK100|-mOOK] [options]" ++ nl);
    Printf ("Options:" ++ nl);
    Printf ("  -addr <dec>       Node address (default 1)" ++ nl);
    Printf ("  -freq <1|2|3|4>   ISM band select (default 3=868)" ++ nl);
    Printf ("  -channel <n>      Channel (default 0)" ++ nl);
    Printf ("  -h                Help" ++ nl) ].

(** ** [main] *)

(** The four local variables of [main]. *)
Record locals : Type := mkLocals {
  addr : Z;      (* uint8_t *)
  mode : Z;      (* int *)
  freq : Z;      (* int *)
  channel : Z    (* int *)
}.

Definition initial : locals :=
  {| addr := 1; mode := 0x03; freq := 0x03; channel := 0 |}.

Definition set_addr (v : Z) (l : locals) : locals :=
  {| addr := v; mode := mode l; freq := freq l; channel := channel l |}.
Definition set_mode (v : Z) (l : locals) : locals :=
  {| addr := addr l; mode := v; freq := freq l; channel := channel l |}.
Definition set_freq (v : Z) (l : locals) : locals :=
  {| addr := addr l; mode := mode l; freq := v; channel := channel l |}.
Definition set_channel (v : Z) (l : locals) : locals :=
  {| addr := addr l; mode := mode l; freq := freq l; channel := v |}.

(** How the argument loop ends: [main] returns from inside it, or the loop
    runs off the end of the arguments with the locals as they then are. *)
Inductive loop_result : Type :=
| Returned (out : list event) (exit_code : Z)
| Completed (l : locals).

Definition unknown_argument (arg : string) : list event :=
  Printf ("Unknown argument: " ++ arg ++ nl) :: usage.

(** The [for] loop of [main].  [args] is [argv[i]], ..., [argv[argc-1]]; the
    test [i+1<argc] is that a token follows the current one, and [argv[++i]]
    takes that token and steps over it. *)
Fixpoint main_loop (args : list string) (l : locals) : loop_result :=
  match args with
  | [] => Completed l
  | arg :: rest =>
      if strcmp arg "-h" =? 0 then Returned usage 0
      else if strcmp arg "-mTPMS" =? 0 then
        main_loop rest (set_freq 0x02 (set_mode 0x07 l))
      else if strcmp arg "-mIoT" =? 0 then
        main_loop rest (set_freq 0x03 (set_mode 0x08 l))
      else if strcmp arg "-mGFSK100" =? 0 then
        main_loop rest (set_mode 0x03 l)
      else if strcmp arg "-mOOK" =? 0 then
        main_loop rest (set_mode 0x06 l)
      else
        match strcmp arg "-addr" =? 0, rest with
        | true, v :: rest' => main_loop rest' (set_addr (to_uint8 (atoi v)) l)
        | _, _ =>
        match strcmp arg "-freq" =? 0, rest with
        | true, v :: rest' => main_loop rest' (set_freq (atoi v) l)
        | _, _ =>
        match strcmp arg "-channel" =? 0, rest with
        | true, v :: rest' => main_loop rest' (set_channel (atoi v) l)
        | _, _ => Returned (unknown_argument arg) 1
        end end end
  end.

(** The slots as [begin] finds them. *)
Definition slots_of (l : locals) : driver_slots :=
  {| debug_level := 1;
     cc1100_freq_select := freq l;
     cc1100_mode_select := mode l;
     cc1100_channel_select := channel l |}.

Section Main.

(** The answer of [radio.begin], given the slots and the address it is
    called with: [false] when it equals [FALSE], [true] otherwise.  The
    driver is outside this program, so the answer is left open. *)
Variable radio_begin : driver_slots -> Z -> bool.

(** The part of [main] after the loop. *)
Definition apply_profile (l : locals) : list event * Z :=
  let my_addr := addr l in
  let slots := slots_of l in
  let setup := [ RadioSetDebugLevel 1;
                 StoreFreqSelect (freq l);
                 StoreModeSelect (mode l);
                 StoreChannelSelect (channel l);
                 RadioBegin my_addr ] in
  if negb (radio_begin slots my_addr) then
    ((setup ++ [ Printf ("Failed to init CC1101 (check wiring/SPI)." ++ nl) ])%list, 2)
  else
    ((setup ++
     [ Printf ("Applied profile mode=0x" ++ fmt_02X (mode l)
               ++ " freq_sel=" ++ fmt_d (freq l)
               ++ " channel=" ++ fmt_d (channel l)
               ++ " addr=" ++ fmt_d (addr l) ++ nl);
       RadioShowRegisterSettings;
       RadioEnd ])%list, 0).

(** [main], on the arguments after the program name: the events in
    program order and the exit code. *)
Definition main (args : list string) : list event * Z :=
  match main_loop args initial with
  | Returned out exit_code => (out, exit_code)
  | Completed l => apply_profile l
  end.

End Main.

(** Two drivers to run the program against. *)
Definition begin_ok : driver_slots -> Z -> bool := fun _ _ => true.
Definition begin_fails : driver_slots -> Z -> bool := fun _ _ => false.

(** ** Vocabulary of the statements *)

(** What the [if]/[else if] chain does with the token at [argv[i]]: a view
    of the chain for the proofs, which [main_loop_cons] ties to [main_loop]. *)
Inductive action : Type :=
| Help
| Update (f : locals -> locals)
| TakeValue (f : string -> locals -> locals)
| Unknown.

Definition classify (arg : string) : action :=
  if strcmp arg "-h" =? 0 then Help
  else if strcmp arg "-mTPMS" =? 0 then Update (fun l => set_freq 0x02 (set_mode 0x07 l))
  else if strcmp arg "-mIoT" =? 0 then Update (fun l => set_freq 0x03 (set_mode 0x08 l))
  else if strcmp arg "-mGFSK100" =? 0 then Update (set_mode 0x03)
  else if strcmp arg "-mOOK" =? 0 then Update (set_mode 0x06)
  else if strcmp arg "-addr" =? 0 then TakeValue (fun v => set_addr (to_uint8 (atoi v)))
  else if strcmp arg "-freq" =? 0 then TakeValue (fun v => set_freq (atoi v))
  else if strcmp arg "-channel" =? 0 then TakeValue (fun v => set_channel (atoi v))
  else Unknown.

(** The well-formed command-line items: a profile flag, or an option
    together with its value token. *)
Inductive flag : Type :=
| TPMS
| IoT
| GFSK100
| OOK
| AddrOpt (v : string)
| FreqOpt (v : string)
| ChannelOpt (v : string).

Definition tokens (f : flag) : list string :=
  match f with
  | TPMS => ["-mTPMS"]
  | IoT => ["-mIoT"]
  | GFSK100 => ["-mGFSK100"]
  | OOK => ["-mOOK"]
  | AddrOpt v => ["-addr"; v]
  | FreqOpt v => ["-freq"; v]
  | ChannelOpt v => ["-channel"; v]
  end.

Inductive field : Type := FAddr | FMode | FFreq | FChannel.

Definition get (fld : field) (l : locals) : Z :=
  match fld with
  | FAddr => addr l
  | FMode => mode l
  | FFreq => freq l
  | FChannel => channel l
  end.

(** The specification's table of which flag writes which field, and what. *)
Definition writes (fld : field) (f : flag) : option Z :=
  match fld, f with
  | FMode, TPMS => Some 0x07
  | FFreq, TPMS => Some 0x02
  | FMode, IoT => Some 0x08
  | FFreq, IoT => Some 0x03
  | FMode, GFSK100 => Some 0x03
  | FMode, OOK => Some 0x06
  | FAddr, AddrOpt v => Some (to_uint8 (atoi v))
  | FFreq, FreqOpt v => Some (atoi v)
  | FChannel, ChannelOpt v => Some (atoi v)
  | _, _ => None
  end.

Definition overwrite (fld : field) (old : Z) (f : flag) : Z :=
  match writes fld f with
  | Some v => v
  | None => old
  end.

(** Everything but text on standard output goes to the driver. *)
Definition driver_event (e : event) : bool :=
  match e with
  | Printf _ => false
  | _ => true
  end.

Definition recognized_flags : list string :=
  ["-h"; "-mTPMS"; "-mIoT"; "-mGFSK100"; "-mOOK"; "-addr"; "-freq"; "-channel"].

(** [arg] compares unequal, under [strcmp], to each of the eight flags. *)
Definition matches_no_flag (arg : string) : Prop :=
  Forall (fun f => strcmp arg f <> 0) recognized_flags.

(** The locals hold values of their C types, and [mode] one of the four
    profile numbers. *)
Definition well_typed (l : locals) : Prop :=
  0 <= addr l < 256
  /\ In (mode l) [0x03; 0x06; 0x07; 0x08]
  /\ INT_MIN <= freq l <= INT_MAX
  /\ INT_MIN <= channel l <= INT_MAX.

(** The reading of the missing-value case under which the flag is dropped:
    the run is the run of the arguments without their last token. *)
Definition silently_dropped
    (radio_begin : driver_slots -> Z -> bool)
    (pre : list string) (flag_token : string) : Prop :=
  main radio_begin (pre ++ [flag_token]) = main radio_begin pre.

Definition value_flags : list string := ["-addr"; "-freq"; "-channel"].

(** The reading under which the address is the value of the numeral modulo
    256 for every integer, of whatever size. *)
Definition addr_is_value_mod_256 (z : Z) : Prop :=
  main_loop ["-addr"; fmt_d z] initial
  = Completed {| addr := z mod 256; mode := 0x03; freq := 0x03; channel := 0 |}.

(** The reading under which -h anywhere among the arguments is enough: the
    run prints the usage text and nothing else, and returns 0. *)
Definition help_anywhere
    (radio_begin : driver_slots -> Z -> bool) (args : list string) : Prop :=
  In "-h" args -> main radio_begin args = (usage, 0).

(** What [main] may hand to the driver: the debug level it fixes, a mode
    out of the four profile numbers, [int]s for band and channel, and a
    byte for the address. *)
Definition typed_event (e : event) : Prop :=
  match e with
  | RadioSetDebugLevel v => v = 1
  | StoreModeSelect v => In v [0x03; 0x06; 0x07; 0x08]
  | StoreFreqSelect v => INT_MIN <= v <= INT_MAX
  | StoreChannelSelect v => INT_MIN <= v <= INT_MAX
  | RadioBegin a => 0 <= a < 256
  | _ => True
  end.

(** The tokens whose branch of the chain assigns to the given local. *)
Definition may_write (fld : field) (arg : string) : bool :=
  match fld with
  | FAddr => strcmp arg "-addr" =? 0
  | FMode => (strcmp arg "-mTPMS" =? 0) || (strcmp arg "-mIoT" =? 0)
             || (strcmp arg "-mGFSK100" =? 0) || (strcmp arg "-mOOK" =? 0)
  | FFreq => (strcmp arg "-mTPMS" =? 0) || (strcmp arg "-mIoT" =? 0)
             || (strcmp arg "-freq" =? 0)
  | FChannel => strcmp arg "-channel" =? 0
  end.

(** [arg] is one of the three flags that take a value, under [strcmp]. *)
Definition is_value_flag (arg : string) : bool :=
  existsb (fun f => strcmp arg f =? 0) value_flags.

(** * Properties *)

(** ** The loop, one token at a time *)

Lemma main_loop_cons (arg : string) (rest : list string) (l : locals) :
  main_loop (arg :: rest) l =
  match classify arg with
  | Help => Returned usage 0
  | Update f => main_loop rest (f l)
  | TakeValue f =>
      match rest with
      | v :: rest' => main_loop rest' (f v l)
      | [] => Returned (unknown_argument arg) 1
      end
  | Unknown => Returned (unknown_argument arg) 1
  end.
Proof.
  unfold classify; cbn [main_loop].
  repeat match goal with
         | |- context [strcmp arg ?f =? 0] => destruct (strcmp arg f =? 0)
         end;
    try reflexivity; destruct rest; reflexivity.
Qed.

(** A prefix of the arguments that the loop runs through leaves the loop at
    the first token after it, with the locals the prefix produced. *)
Lemma main_loop_app_len (n : nat) :
  forall pre rest l l',
    (List.length pre <= n)%nat ->
    main_loop pre l = Completed l' ->
    main_loop (pre ++ rest) l = main_loop rest l'.
Proof.
  induction n as [|n IH]; intros pre rest l l' Hlen Hrun.
  - destruct pre; [|simpl in Hlen; lia].
    simpl in Hrun. injection Hrun as <-. reflexivity.
  - destruct pre as [|arg pre].
    + simpl in Hrun. injection Hrun as <-. reflexivity.
    + simpl in Hlen. rewrite <- app_comm_cons.
      rewrite main_loop_cons in Hrun |- *.
      destruct (classify arg) as [|f|f|]; try discriminate.
      * apply IH; [lia|assumption].
      * destruct pre as [|v pre]; [discriminate|].
        simpl in Hlen. rewrite <- app_comm_cons.
        apply IH; [lia|assumption].
Qed.

Lemma main_loop_app (pre rest : list string) (l l' : locals) :
  main_loop pre l = Completed l' ->
  main_loop (pre ++ rest) l = main_loop rest l'.
Proof. apply (main_loop_app_len (List.length pre)). lia. Qed.

(** ** Profile flags *)

(** C1. Wherever the loop reaches a profile flag, that is after any prefix
    of the arguments it has run through, the flag sets the pair (mode, freq)
    by the table: -mTPMS gives (0x07, 0x02), -mIoT gives (0x08, 0x03),
    -mGFSK100 gives mode 0x03 and -mOOK mode 0x06 with freq as it was; addr
    and channel keep their values, and the loop goes on with the next
    token. *)
Theorem profile_flag_table (pre rest : list string) (l0 l : locals) :
  main_loop pre l0 = Completed l ->
  main_loop (pre ++ "-mTPMS" :: rest) l0
    = main_loop rest {| addr := addr l; mode := 0x07; freq := 0x02; channel := channel l |}
  /\ main_loop (pre ++ "-mIoT" :: rest) l0
    = main_loop rest {| addr := addr l; mode := 0x08; freq := 0x03; channel := channel l |}
  /\ main_loop (pre ++ "-mGFSK100" :: rest) l0
    = main_loop rest {| addr := addr l; mode := 0x03; freq := freq l; channel := channel l |}
  /\ main_loop (pre ++ "-mOOK" :: rest) l0
    = main_loop rest {| addr := addr l; mode := 0x06; freq := freq l; channel := channel l |}.
Proof.
  intros Hpre.
  repeat split; rewrite (main_loop_app _ _ _ _ Hpre); reflexivity.
Qed.

Lemma profile_flag_table_witness :
  main_loop ["-freq"; "4"; "-addr"; "9"] initial
    = Completed {| addr := 9; mode := 3; freq := 4; channel := 0 |}
  /\ main_loop (["-freq"; "4"; "-addr"; "9"] ++ ["-mTPMS"]) initial
    = Completed {| addr := 9; mode := 7; freq := 2; channel := 0 |}
  /\ main_loop (["-freq"; "4"; "-addr"; "9"] ++ ["-mOOK"]) initial
    = Completed {| addr := 9; mode := 6; freq := 4; channel := 0 |}.
Proof.
  assert (H : main_loop ["-freq"; "4"; "-addr"; "9"] initial
              = Completed {| addr := 9; mode := 3; freq := 4; channel := 0 |})
    by reflexivity.
  split; [exact H|].
  destruct (profile_flag_table ["-freq"; "4"; "-addr"; "9"] [] initial _ H)
    as (Htpms & _ & _ & Hook).
  split; [exact Htpms | exact Hook].
Defined.

(** ** Defaults *)

(** C2. With no arguments the loop ends at once with mode = 0x03,
    freq = 0x03, channel = 0 and addr = 1, and these are the values [main]
    stores into the driver's slots and passes to [begin], whatever [begin]
    then answers. *)
Theorem default_configuration :
  main_loop [] initial
    = Completed {| addr := 1; mode := 0x03; freq := 0x03; channel := 0 |}
  /\ forall radio_begin, exists out exit_code,
       main radio_begin [] =
       ([ RadioSetDebugLevel 1; StoreFreqSelect 0x03; StoreModeSelect 0x03;
          StoreChannelSelect 0; RadioBegin 1 ] ++ out, exit_code)%list.
Proof.
  split; [reflexivity|].
  intros radio_begin. unfold main, apply_profile; simpl.
  destruct (radio_begin _ _); simpl; eauto.
Qed.

(** ** Order of the flags *)

Lemma main_loop_flag (f : flag) (rest : list string) (l : locals) :
  exists l', main_loop (tokens f ++ rest) l = main_loop rest l'
             /\ forall fld, get fld l' = overwrite fld (get fld l) f.
Proof.
  destruct f; eexists; (split; [reflexivity | intros []; reflexivity]).
Qed.

(** The loop runs through any sequence of well-formed items, and treats each
    field as a cell that the items write from left to right. *)
Lemma main_loop_flags (fs : list flag) :
  forall l, exists l',
    main_loop (flat_map tokens fs) l = Completed l'
    /\ forall fld, get fld l' = fold_left (overwrite fld) fs (get fld l).
Proof.
  induction fs as [|f fs IH]; intros l; simpl.
  - exists l. split; [reflexivity | reflexivity].
  - destruct (main_loop_flag f (flat_map tokens fs) l) as (l1 & Hstep & Hget).
    destruct (IH l1) as (l' & Hrun & Hfold).
    exists l'. split.
    + rewrite Hstep. exact Hrun.
    + intros fld. rewrite Hfold, Hget. reflexivity.
Qed.

Lemma fold_overwrite_silent (fld : field) (fs : list flag) (v : Z) :
  Forall (fun g => writes fld g = None) fs ->
  fold_left (overwrite fld) fs v = v.
Proof.
  intros H; revert v; induction H as [|g fs Hg _ IH]; intros v; simpl.
  - reflexivity.
  - unfold overwrite at 2. rewrite Hg. apply IH.
Qed.

(** C3. The loop takes the items from left to right and, for every field,
    the last item that writes it decides its final value: if [f] writes [v]
    into a field and no item after [f] writes that field, the field ends as
    [v], whatever came before [f].  So -mTPMS -freq 4 ends with freq = 4 and
    -freq 4 -mTPMS with freq = 0x02. *)
Theorem last_flag_wins :
  (forall (fld : field) (before after : list flag) (f : flag) (v : Z) (l : locals),
      writes fld f = Some v ->
      Forall (fun g => writes fld g = None) after ->
      exists l',
        main_loop (flat_map tokens (before ++ f :: after)) l = Completed l'
        /\ get fld l' = v)
  /\ main_loop ["-mTPMS"; "-freq"; "4"] initial
     = Completed {| addr := 1; mode := 0x07; freq := 4; channel := 0 |}
  /\ main_loop ["-freq"; "4"; "-mTPMS"] initial
     = Completed {| addr := 1; mode := 0x07; freq := 0x02; channel := 0 |}.
Proof.
  split; [|split; reflexivity].
  intros fld before after f v l Hw Hafter.
  destruct (main_loop_flags (before ++ f :: after) l) as (l' & Hrun & Hget).
  exists l'. split; [exact Hrun|].
  rewrite Hget, fold_left_app. simpl.
  rewrite (fold_overwrite_silent fld after _ Hafter).
  unfold overwrite. rewrite Hw. reflexivity.
Qed.

Lemma last_flag_wins_witness :
  writes FFreq (FreqOpt "4") = Some 4
  /\ Forall (fun g => writes FFreq g = None) [AddrOpt "7"; OOK]
  /\ exists l',
       main_loop ["-freq"; "1"; "-mTPMS"; "-freq"; "4"; "-addr"; "7"; "-mOOK"] initial
         = Completed l'
       /\ freq l' = 4.
Proof.
  assert (Hw : writes FFreq (FreqOpt "4") = Some 4) by reflexivity.
  assert (Ha : Forall (fun g => writes FFreq g = None) [AddrOpt "7"; OOK])
    by (repeat constructor).
  split; [exact Hw|]. split; [exact Ha|].
  exact (proj1 last_flag_wins FFreq [FreqOpt "1"; TPMS] [AddrOpt "7"; OOK]
               (FreqOpt "4") 4 initial Hw Ha).
Defined.

(** ** Leaving the loop early *)

Lemma classify_no_flag (arg : string) :
  matches_no_flag arg -> classify arg = Unknown.
Proof.
  unfold matches_no_flag, recognized_flags, classify; intros H.
  repeat match goal with
         | H : Forall _ (_ :: _) |- _ =>
             let Hne := fresh "Hne" in
             let H' := fresh "H" in
             apply Forall_cons_iff in H; destruct H as [Hne H'];
             apply Z.eqb_neq in Hne; rewrite Hne
         end.
  reflexivity.
Qed.

Lemma usage_no_driver : forallb (fun e => negb (driver_event e)) usage = true.
Proof. reflexivity. Qed.

(** C5. When the loop, having run through the tokens before it, reaches a
    token that matches none of the flags, [main] prints "Unknown argument: "
    followed by that token, then the seven lines of the usage text, and
    returns 1; nothing in its output is addressed to the driver. *)
Theorem unknown_argument_exit
    (radio_begin : driver_slots -> Z -> bool)
    (pre rest : list string) (arg : string) (l : locals) :
  main_loop pre initial = Completed l ->
  matches_no_flag arg ->
  main radio_begin (pre ++ arg :: rest)
    = ([ Printf ("Unknown argument: " ++ arg ++ nl);
         Printf ("CC1101 RX Profile Demo" ++ nl);
         Printf ("Usage: rx_profile_demo [-mTPMS|-mIoT|-mGFSK100|-mOOK] [options]" ++ nl);
         Printf ("Options:" ++ nl);
         Printf ("  -addr <dec>       Node address (default 1)" ++ nl);
         Printf ("  -freq <1|2|3|4>   ISM band select (default 3=868)" ++ nl);
         Printf ("  -channel <n>      Channel (default 0)" ++ nl);
         Printf ("  -h                Help" ++ nl) ], 1)
  /\ forallb (fun e => negb (driver_event e))
             (fst (main radio_begin (pre ++ arg :: rest))) = true.
Proof.
  intros Hpre Harg.
  assert (Hmain : main radio_begin (pre ++ arg :: rest)
                  = (unknown_argument arg, 1)).
  { unfold main. rewrite (main_loop_app _ _ _ _ Hpre), main_loop_cons.
    rewrite (classify_no_flag _ Harg). reflexivity. }
  split; [exact Hmain|].
  rewrite Hmain. reflexivity.
Qed.

Lemma unknown_argument_exit_witness :
  main_loop ["-mIoT"; "-channel"; "5"] initial
    = Completed {| addr := 1; mode := 8; freq := 3; channel := 5 |}
  /\ matches_no_flag "-bogus"
  /\ main begin_ok (["-mIoT"; "-channel"; "5"] ++ "-bogus" :: ["-h"])
     = ([ Printf ("Unknown argument: " ++ "-bogus" ++ nl);
          Printf ("CC1101 RX Profile Demo" ++ nl);
          Printf ("Usage: rx_profile_demo [-mTPMS|-mIoT|-mGFSK100|-mOOK] [options]" ++ nl);
          Printf ("Options:" ++ nl);
          Printf ("  -addr <dec>       Node address (default 1)" ++ nl);
          Printf ("  -freq <1|2|3|4>   ISM band select (default 3=868)" ++ nl);
          Printf ("  -channel <n>      Channel (default 0)" ++ nl);
          Printf ("  -h                Help" ++ nl) ], 1).
Proof.
  assert (Hpre : main_loop ["-mIoT"; "-channel"; "5"] initial
                 = Completed {| addr := 1; mode := 8; freq := 3; channel := 5 |})
    by reflexivity.
  assert (Harg : matches_no_flag "-bogus")
    by (repeat constructor; discriminate).
  split; [exact Hpre|]. split; [exact Harg|].
  exact (proj1 (unknown_argument_exit begin_ok _ ["-h"] "-bogus" _ Hpre Harg)).
Defined.

(** ** A value flag with nothing after it *)

(** C6, on the code: -addr alone is not dropped.  The run prints the
    unknown-argument message for it and returns 1, where the run without it
    initialises the radio and returns 0. *)
Lemma dangling_flag_not_dropped :
  ~ silently_dropped begin_ok [] "-addr"
  /\ main begin_ok ["-addr"] = (Printf ("Unknown argument: -addr" ++ nl) :: usage, 1)
  /\ snd (main begin_ok []) = 0.
Proof.
  split; [|split; reflexivity].
  unfold silently_dropped. intros H.
  apply (f_equal snd) in H. vm_compute in H. discriminate H.
Qed.

(** C6, as the code has it. A value flag that the loop reaches as the
    current token, having run through the tokens before it, and that is the
    last token fails the test [i+1<argc] of its own branch and ends in the
    final [else]: [main] prints "Unknown argument: " with the flag, then the
    seven lines of the usage text, and returns 1 without a call to the
    driver. *)
Theorem dangling_value_flag_is_unknown
    (radio_begin : driver_slots -> Z -> bool)
    (pre : list string) (flag_token : string) (l : locals) :
  main_loop pre initial = Completed l ->
  In flag_token value_flags ->
  main radio_begin (pre ++ [flag_token])
    = ([ Printf ("Unknown argument: " ++ flag_token ++ nl);
         Printf ("CC1101 RX Profile Demo" ++ nl);
         Printf ("Usage: rx_profile_demo [-mTPMS|-mIoT|-mGFSK100|-mOOK] [options]" ++ nl);
         Printf ("Options:" ++ nl);
         Printf ("  -addr <dec>       Node address (default 1)" ++ nl);
         Printf ("  -freq <1|2|3|4>   ISM band select (default 3=868)" ++ nl);
         Printf ("  -channel <n>      Channel (default 0)" ++ nl);
         Printf ("  -h                Help" ++ nl) ], 1)
  /\ forallb (fun e => negb (driver_event e))
             (fst (main radio_begin (pre ++ [flag_token]))) = true.
Proof.
  intros Hpre Hin.
  assert (Hmain : main radio_begin (pre ++ [flag_token])
                  = (unknown_argument flag_token, 1)).
  { unfold main. rewrite (main_loop_app _ _ _ _ Hpre).
    simpl in Hin. destruct Hin as [<-|[<-|[<-|[]]]]; reflexivity. }
  split; [exact Hmain|].
  rewrite Hmain. reflexivity.
Qed.

Lemma dangling_value_flag_is_unknown_witness :
  main_loop ["-mTPMS"] initial
    = Completed {| addr := 1; mode := 7; freq := 2; channel := 0 |}
  /\ In "-freq" value_flags
  /\ main begin_ok (["-mTPMS"] ++ ["-freq"])
     = ([ Printf ("Unknown argument: " ++ "-freq" ++ nl);
          Printf ("CC1101 RX Profile Demo" ++ nl);
          Printf ("Usage: rx_profile_demo [-mTPMS|-mIoT|-mGFSK100|-mOOK] [options]" ++ nl);
          Printf ("Options:" ++ nl);
          Printf ("  -addr <dec>       Node address (default 1)" ++ nl);
          Printf ("  -freq <1|2|3|4>   ISM band select (default 3=868)" ++ nl);
          Printf ("  -channel <n>      Channel (default 0)" ++ nl);
          Printf ("  -h                Help" ++ nl) ], 1).
Proof.
  assert (Hpre : main_loop ["-mTPMS"] initial
                 = Completed {| addr := 1; mode := 7; freq := 2; channel := 0 |})
    by reflexivity.
  assert (Hin : In "-freq" value_flags) by (right; left; reflexivity).
  split; [exact Hpre|]. split; [exact Hin|].
  exact (proj1 (dangling_value_flag_is_unknown begin_ok _ "-freq" _ Hpre Hin)).
Defined.

(** ** Help *)

(** C7, on the code: -h after a token the loop rejects comes too late (the
    run returns 1), and -h after -addr is taken as the address (the radio
    is initialised with address 0 and no usage text is printed). *)
Lemma help_not_anywhere :
  ~ help_anywhere begin_ok ["-bogus"; "-h"]
  /\ snd (main begin_ok ["-bogus"; "-h"]) = 1
  /\ ~ help_anywhere begin_ok ["-addr"; "-h"]
  /\ In (RadioBegin 0) (fst (main begin_ok ["-addr"; "-h"])).
Proof.
  repeat split.
  - intros H. specialize (H (or_intror (or_introl eq_refl))).
    apply (f_equal snd) in H. vm_compute in H. discriminate H.
  - intros H. specialize (H (or_intror (or_introl eq_refl))).
    apply (f_equal (fun r => List.length (fst r))) in H.
    vm_compute in H. discriminate H.
  - vm_compute. tauto.
Qed.

(** C7, as the code has it. When the loop, having run through the tokens
    before it, reaches -h as the current token, [main] prints the seven
    lines of the usage text and returns 0 at once: the tokens after -h are
    not looked at, and nothing is stored into the driver's slots or asked
    of the driver. *)
Theorem help_short_circuits
    (radio_begin : driver_slots -> Z -> bool)
    (pre rest : list string) (l : locals) :
  main_loop pre initial = Completed l ->
  main radio_begin (pre ++ "-h" :: rest)
    = ([ Printf ("CC1101 RX Profile Demo" ++ nl);
         Printf ("Usage: rx_profile_demo [-mTPMS|-mIoT|-mGFSK100|-mOOK] [options]" ++ nl);
         Printf ("Options:" ++ nl);
         Printf ("  -addr <dec>       Node address (default 1)" ++ nl);
         Printf ("  -freq <1|2|3|4>   ISM band select (default 3=868)" ++ nl);
         Printf ("  -channel <n>      Channel (default 0)" ++ nl);
         Printf ("  -h                Help" ++ nl) ], 0)
  /\ forallb (fun e => negb (driver_event e))
             (fst (main radio_begin (pre ++ "-h" :: rest))) = true.
Proof.
  intros Hpre.
  assert (Hmain : main radio_begin (pre ++ "-h" :: rest) = (usage, 0)).
  { unfold main. rewrite (main_loop_app _ _ _ _ Hpre). reflexivity. }
  split; [exact Hmain|].
  rewrite Hmain. reflexivity.
Qed.

Lemma help_short_circuits_witness :
  main_loop ["-mTPMS"; "-addr"; "12"] initial
    = Completed {| addr := 12; mode := 7; freq := 2; channel := 0 |}
  /\ main begin_ok (["-mTPMS"; "-addr"; "12"] ++ "-h" :: ["-bogus"; "-freq"])
     = ([ Printf ("CC1101 RX Profile Demo" ++ nl);
          Printf ("Usage: rx_profile_demo [-mTPMS|-mIoT|-mGFSK100|-mOOK] [options]" ++ nl);
          Printf ("Options:" ++ nl);
          Printf ("  -addr <dec>       Node address (default 1)" ++ nl);
          Printf ("  -freq <1|2|3|4>   ISM band select (default 3=868)" ++ nl);
          Printf ("  -channel <n>      Channel (default 0)" ++ nl);
          Printf ("  -h                Help" ++ nl) ], 0).
Proof.
  assert (Hpre : main_loop ["-mTPMS"; "-addr"; "12"] initial
                 = Completed {| addr := 12; mode := 7; freq := 2; channel := 0 |})
    by reflexivity.
  split; [exact Hpre|].
  exact (proj1 (help_short_circuits begin_ok _ ["-bogus"; "-freq"] _ Hpre)).
Defined.

(** ** Handing the configuration to the driver *)

(** C4. When the loop has run through all arguments and [begin] answers
    FALSE, [main] prints the diagnostic and returns 2; after [begin] it
    makes no further call: neither [show_register_settings] nor [end]
    occurs in the run. *)
Theorem init_failure_exit
    (radio_begin : driver_slots -> Z -> bool)
    (args : list string) (l : locals) :
  main_loop args initial = Completed l ->
  radio_begin (slots_of l) (addr l) = false ->
  main radio_begin args
    = ([ RadioSetDebugLevel 1;
         StoreFreqSelect (freq l);
         StoreModeSelect (mode l);
         StoreChannelSelect (channel l);
         RadioBegin (addr l);
         Printf ("Failed to init CC1101 (check wiring/SPI)." ++ nl) ], 2)
  /\ ~ In RadioShowRegisterSettings (fst (main radio_begin args))
  /\ ~ In RadioEnd (fst (main radio_begin args)).
Proof.
  intros Hloop Hbegin.
  assert (Hmain : main radio_begin args
    = ([ RadioSetDebugLevel 1; StoreFreqSelect (freq l); StoreModeSelect (mode l);
         StoreChannelSelect (channel l); RadioBegin (addr l);
         Printf ("Failed to init CC1101 (check wiring/SPI)." ++ nl) ], 2)).
  { unfold main, apply_profile. rewrite Hloop.
    rewrite Hbegin. reflexivity. }
  split; [exact Hmain|].
  rewrite Hmain; simpl.
  split; intros H; repeat (destruct H as [H|H]; [discriminate H|]); exact H.
Qed.

Lemma init_failure_exit_witness :
  main_loop ["-mIoT"; "-addr"; "5"] initial
    = Completed {| addr := 5; mode := 8; freq := 3; channel := 0 |}
  /\ begin_fails (slots_of {| addr := 5; mode := 8; freq := 3; channel := 0 |}) 5 = false
  /\ snd (main begin_fails ["-mIoT"; "-addr"; "5"]) = 2
  /\ ~ In RadioShowRegisterSettings (fst (main begin_fails ["-mIoT"; "-addr"; "5"]))
  /\ ~ In RadioEnd (fst (main begin_fails ["-mIoT"; "-addr"; "5"])).
Proof.
  assert (Hloop : main_loop ["-mIoT"; "-addr"; "5"] initial
                  = Completed {| addr := 5; mode := 8; freq := 3; channel := 0 |})
    by reflexivity.
  assert (Hbegin : begin_fails
            (slots_of {| addr := 5; mode := 8; freq := 3; channel := 0 |}) 5 = false)
    by reflexivity.
  split; [exact Hloop|]. split; [exact Hbegin|].
  destruct (init_failure_exit begin_fails _ _ Hloop Hbegin) as (Hmain & Hshow & Hend).
  split; [rewrite Hmain; reflexivity|].
  split; [exact Hshow | exact Hend].
Defined.

(** C9. When the loop has run through all arguments and [begin] does not
    answer FALSE, [main] returns 0, and the run is: the three stores, [begin]
    with the address, the line "Applied profile ..." formatted from the same
    four locals that were stored and passed, then [show_register_settings],
    then [end]. *)
Theorem success_path
    (radio_begin : driver_slots -> Z -> bool)
    (args : list string) (l : locals) :
  main_loop args initial = Completed l ->
  radio_begin (slots_of l) (addr l) = true ->
  main radio_begin args
    = ([ RadioSetDebugLevel 1;
         StoreFreqSelect (freq l);
         StoreModeSelect (mode l);
         StoreChannelSelect (channel l);
         RadioBegin (addr l);
         Printf ("Applied profile mode=0x" ++ fmt_02X (mode l)
                 ++ " freq_sel=" ++ fmt_d (freq l)
                 ++ " channel=" ++ fmt_d (channel l)
                 ++ " addr=" ++ fmt_d (addr l) ++ nl);
         RadioShowRegisterSettings;
         RadioEnd ], 0).
Proof.
  intros Hloop Hbegin.
  unfold main, apply_profile. rewrite Hloop.
  rewrite Hbegin. reflexivity.
Qed.

Lemma success_path_witness :
  main_loop ["-mTPMS"; "-channel"; "3"; "-addr"; "200"] initial
    = Completed {| addr := 200; mode := 7; freq := 2; channel := 3 |}
  /\ begin_ok (slots_of {| addr := 200; mode := 7; freq := 2; channel := 3 |}) 200 = true
  /\ main begin_ok ["-mTPMS"; "-channel"; "3"; "-addr"; "200"]
     = ([ RadioSetDebugLevel 1; StoreFreqSelect 2; StoreModeSelect 7;
          StoreChannelSelect 3; RadioBegin 200;
          Printf ("Applied profile mode=0x07 freq_sel=2 channel=3 addr=200" ++ nl);
          RadioShowRegisterSettings; RadioEnd ], 0).
Proof.
  assert (Hloop : main_loop ["-mTPMS"; "-channel"; "3"; "-addr"; "200"] initial
                  = Completed {| addr := 200; mode := 7; freq := 2; channel := 3 |})
    by reflexivity.
  assert (Hbegin : begin_ok
            (slots_of {| addr := 200; mode := 7; freq := 2; channel := 3 |}) 200 = true)
    by reflexivity.
  split; [exact Hloop|]. split; [exact Hbegin|].
  exact (success_path begin_ok _ _ Hloop Hbegin).
Defined.

(** ** Options that take a value *)

(** *** [atoi] reads back what [%d] writes *)

Lemma digits_value_cons (a : ascii) (s : string) (acc : Z) :
  digits_value (String a s) acc
  = if isdigit a then digits_value s (10 * acc + (code a - 48)) else acc.
Proof. reflexivity. Qed.

(** Evaluates [isdigit] and [code] at the literal character in the goal. *)
Ltac eval_digit :=
  rewrite digits_value_cons;
  match goal with
  | |- context [isdigit ?c] =>
      let b := eval vm_compute in (isdigit c) in
      let n := eval vm_compute in (code c) in
      change (isdigit c) with b; change (code c) with n; cbv iota
  end.

Lemma digits_value_acc (d : Decimal.uint) :
  forall acc : positive,
    digits_value (NilEmpty.string_of_uint d) (Z.pos acc)
    = Z.pos (Pos.of_uint_acc d acc).
Proof.
  induction d; intros acc; cbn [NilEmpty.string_of_uint Pos.of_uint_acc];
    [reflexivity | ..];
    eval_digit; rewrite <- IHd; f_equal; lia.
Qed.

Lemma digits_value_of_uint (d : Decimal.uint) :
  digits_value (NilEmpty.string_of_uint d) 0 = Z.of_N (Pos.of_uint d).
Proof.
  induction d; cbn [NilEmpty.string_of_uint Pos.of_uint];
    [reflexivity | eval_digit; exact IHd | ..];
    eval_digit; cbn [Z.of_N];
    match goal with
    | |- digits_value _ ?e = Z.pos (Pos.of_uint_acc _ ?q) =>
        change e with (Z.pos q); apply digits_value_acc
    end.
Qed.

Lemma digits_value_to_uint (p : positive) :
  digits_value (NilEmpty.string_of_uint (Pos.to_uint p)) 0 = Z.pos p.
Proof.
  rewrite digits_value_of_uint, DecimalPos.Unsigned.of_to. reflexivity.
Qed.

Lemma to_int_id (z : Z) : INT_MIN <= z <= INT_MAX -> to_int z = z.
Proof.
  unfold INT_MIN, INT_MAX, to_int; intros H.
  rewrite Z.mod_small; lia.
Qed.

(** The string [%d] prints for a positive number starts with a digit. *)
Lemma strtol_string_of_pos (p : positive) :
  strtol (NilEmpty.string_of_uint (Pos.to_uint p)) = Z.min LONG_MAX (Z.pos p)
  /\ strtol (String "-" (NilEmpty.string_of_uint (Pos.to_uint p)))
     = Z.max LONG_MIN (Z.neg p).
Proof.
  pose proof (digits_value_to_uint p) as Hv.
  pose proof (DecimalPos.Unsigned.to_uint_nonnil p) as Hnil.
  destruct (Pos.to_uint p) as [|d|d|d|d|d|d|d|d|d|d]; [congruence | ..];
    (split; [unfold strtol; cbn [NilEmpty.string_of_uint skip_spaces];
             match goal with
             | |- context [isspace ?c] =>
                 let b := eval vm_compute in (isspace c) in
                 change (isspace c) with b; cbv iota
             end;
             cbn [NilEmpty.string_of_uint] in Hv; rewrite Hv; reflexivity
           | unfold strtol; cbn [skip_spaces];
             change (isspace "-") with false; cbv iota;
             rewrite Hv; reflexivity]).
Qed.

(** On the numeral of any integer, [strtol] gives the integer brought into
    the range of [long]. *)
Lemma strtol_fmt_d (z : Z) :
  strtol (fmt_d z) = Z.max LONG_MIN (Z.min LONG_MAX z).
Proof.
  unfold fmt_d. destruct z as [|p|p]; cbn [Z.to_int NilZero.string_of_int].
  - reflexivity.
  - pose proof (DecimalPos.Unsigned.to_uint_nonnil p) as Hnil.
    unfold NilZero.string_of_uint.
    destruct (Pos.to_uint p) eqn:E; try congruence; rewrite <- E;
      rewrite (proj1 (strtol_string_of_pos p)); unfold LONG_MIN, LONG_MAX; lia.
  - pose proof (DecimalPos.Unsigned.to_uint_nonnil p) as Hnil.
    unfold NilZero.string_of_uint.
    destruct (Pos.to_uint p) eqn:E; try congruence; rewrite <- E;
      rewrite (proj2 (strtol_string_of_pos p)); unfold LONG_MIN, LONG_MAX; lia.
Qed.

Lemma atoi_fmt_d_long (z : Z) :
  LONG_MIN <= z <= LONG_MAX -> atoi (fmt_d z) = to_int z.
Proof.
  intros Hz. unfold atoi. rewrite strtol_fmt_d. f_equal. lia.
Qed.

Lemma atoi_fmt_d (z : Z) : INT_MIN <= z <= INT_MAX -> atoi (fmt_d z) = z.
Proof.
  intros Hz. rewrite atoi_fmt_d_long.
  - apply to_int_id. exact Hz.
  - unfold INT_MIN, INT_MAX, LONG_MIN, LONG_MAX in *. lia.
Qed.

(** The low eight bits survive the conversion to [int]. *)
Lemma to_uint8_to_int (z : Z) : to_uint8 (to_int z) = z mod 256.
Proof.
  unfold to_uint8, to_int.
  pose proof (Z.div_mod (z + 2 ^ 31) (2 ^ 32) ltac:(lia)) as H.
  replace ((z + 2 ^ 31) mod 2 ^ 32 - 2 ^ 31)
    with (z + (- (2 ^ 24 * ((z + 2 ^ 31) / 2 ^ 32))) * 256) by lia.
  apply Z.mod_add. lia.
Qed.

(** C10. A value flag followed by any token at all takes that token as its
    value and steps over it, whatever the token is: the field is set from
    [atoi] of the token, the other three locals stay, and the loop goes on
    after the token.  For the numeral of an [int] z the field becomes z (the
    address z mod 256).  So -addr -h sets the address to 0 and prints no
    help, -freq -mTPMS sets the band to 0 and leaves the mode at its
    default, and -channel -mOOK -channel 7 ends with channel 7 and the mode
    at its default. *)
Theorem value_flag_takes_next_token :
  (forall (v : string) (rest : list string) (l : locals),
      main_loop ("-addr" :: v :: rest) l
        = main_loop rest {| addr := atoi v mod 256; mode := mode l;
                            freq := freq l; channel := channel l |}
      /\ main_loop ("-freq" :: v :: rest) l
        = main_loop rest {| addr := addr l; mode := mode l;
                            freq := atoi v; channel := channel l |}
      /\ main_loop ("-channel" :: v :: rest) l
        = main_loop rest {| addr := addr l; mode := mode l;
                            freq := freq l; channel := atoi v |})
  /\ (forall (z : Z) (rest : list string) (l : locals),
      INT_MIN <= z <= INT_MAX ->
      main_loop ("-addr" :: fmt_d z :: rest) l
        = main_loop rest {| addr := z mod 256; mode := mode l;
                            freq := freq l; channel := channel l |}
      /\ main_loop ("-freq" :: fmt_d z :: rest) l
        = main_loop rest {| addr := addr l; mode := mode l;
                            freq := z; channel := channel l |}
      /\ main_loop ("-channel" :: fmt_d z :: rest) l
        = main_loop rest {| addr := addr l; mode := mode l;
                            freq := freq l; channel := z |})
  /\ main_loop ["-addr"; "-h"] initial
     = Completed {| addr := 0; mode := 0x03; freq := 0x03; channel := 0 |}
  /\ main begin_ok ["-addr"; "-h"]
     = ([ RadioSetDebugLevel 1; StoreFreqSelect 3; StoreModeSelect 3;
          StoreChannelSelect 0; RadioBegin 0;
          Printf ("Applied profile mode=0x03 freq_sel=3 channel=0 addr=0" ++ nl);
          RadioShowRegisterSettings; RadioEnd ], 0)
  /\ main_loop ["-freq"; "-mTPMS"] initial
     = Completed {| addr := 1; mode := 0x03; freq := 0; channel := 0 |}
  /\ main_loop ["-channel"; "-mOOK"; "-channel"; "7"] initial
     = Completed {| addr := 1; mode := 0x03; freq := 0x03; channel := 7 |}
  /\ main_loop ["-channel"; "7"; "-channel"; "-h"; "-freq"; "4"; "-addr"; "200"]
       initial
     = Completed {| addr := 200; mode := 0x03; freq := 4; channel := 0 |}.
Proof.
  split; [|split; [|repeat split]].
  - intros v rest l. repeat split.
  - intros z rest l Hz.
    pose proof (atoi_fmt_d z Hz) as Hat.
    split; [|split].
    + change (main_loop ("-addr" :: fmt_d z :: rest) l)
        with (main_loop rest {| addr := atoi (fmt_d z) mod 256; mode := mode l;
                                freq := freq l; channel := channel l |}).
      rewrite Hat. reflexivity.
    + change (main_loop ("-freq" :: fmt_d z :: rest) l)
        with (main_loop rest {| addr := addr l; mode := mode l;
                                freq := atoi (fmt_d z); channel := channel l |}).
      rewrite Hat. reflexivity.
    + change (main_loop ("-channel" :: fmt_d z :: rest) l)
        with (main_loop rest {| addr := addr l; mode := mode l;
                                freq := freq l; channel := atoi (fmt_d z) |}).
      rewrite Hat. reflexivity.
Qed.

Lemma value_flag_takes_next_token_witness :
  INT_MIN <= -12 <= INT_MAX
  /\ main_loop ("-channel" :: "-12" :: ["-mOOK"]) initial
     = Completed {| addr := 1; mode := 0x06; freq := 0x03; channel := -12 |}
  /\ main_loop ("-addr" :: "-12" :: ["-mOOK"]) initial
     = Completed {| addr := 244; mode := 0x06; freq := 0x03; channel := 0 |}.
Proof.
  assert (Hz : INT_MIN <= -12 <= INT_MAX) by (unfold INT_MIN, INT_MAX; lia).
  split; [exact Hz|].
  destruct (proj1 (proj2 value_flag_takes_next_token) (-12) ["-mOOK"] initial Hz)
    as (Ha & _ & Hc).
  split; [exact Hc | exact Ha].
Defined.

(** C8, on the code: the value of a numeral beyond the range of [long] is
    not what arrives.  For 2^63, [strtol] gives [LONG_MAX], whose low eight
    bits are 255, while 2^63 mod 256 is 0. *)
Lemma addr_beyond_long_saturates :
  ~ addr_is_value_mod_256 (2 ^ 63)
  /\ fmt_d (2 ^ 63) = "9223372036854775808"
  /\ main_loop ["-addr"; "9223372036854775808"] initial
     = Completed {| addr := 255; mode := 0x03; freq := 0x03; channel := 0 |}
  /\ 2 ^ 63 mod 256 = 0.
Proof.
  split; [|repeat split].
  unfold addr_is_value_mod_256. intros H.
  vm_compute in H. discriminate H.
Qed.

(** C8, as the code has it. -addr takes its value token through [atoi] and
    keeps the low eight bits.  For a token that is the decimal numeral of an
    integer z in the range of [long], as [%d] writes it, the address becomes
    z mod 256, a number in [0, 256); -addr 200 gives 200 and -addr 300
    gives 44. *)
Theorem addr_keeps_low_8_bits (z : Z) (rest : list string) (l : locals) :
  LONG_MIN <= z <= LONG_MAX ->
  main_loop ("-addr" :: fmt_d z :: rest) l
    = main_loop rest {| addr := z mod 256; mode := mode l;
                        freq := freq l; channel := channel l |}
  /\ 0 <= z mod 256 < 256
  /\ main_loop ["-addr"; "200"] initial
     = Completed {| addr := 200; mode := 0x03; freq := 0x03; channel := 0 |}
  /\ main_loop ["-addr"; "300"] initial
     = Completed {| addr := 44; mode := 0x03; freq := 0x03; channel := 0 |}.
Proof.
  intros Hz.
  split; [|split; [apply Z.mod_pos_bound; lia | split; reflexivity]].
  change (main_loop ("-addr" :: fmt_d z :: rest) l)
    with (main_loop rest {| addr := to_uint8 (atoi (fmt_d z)); mode := mode l;
                            freq := freq l; channel := channel l |}).
  rewrite (atoi_fmt_d_long z Hz), to_uint8_to_int. reflexivity.
Qed.

Lemma addr_keeps_low_8_bits_witness :
  LONG_MIN <= 4294967596 <= LONG_MAX
  /\ main_loop ("-addr" :: "4294967596" :: ["-mOOK"]) initial
     = Completed {| addr := 44; mode := 0x06; freq := 0x03; channel := 0 |}.
Proof.
  assert (Hz : LONG_MIN <= 4294967596 <= LONG_MAX)
    by (unfold LONG_MIN, LONG_MAX; lia).
  split; [exact Hz|].
  exact (proj1 (addr_keeps_low_8_bits 4294967596 ["-mOOK"] initial Hz)).
Defined.

(** ** Checks of the model *)

Lemma strcmp_refl (s : string) : strcmp s s = 0.
Proof.
  induction s as [|a s IH]; simpl; [reflexivity|].
  rewrite Z.eqb_refl. exact IH.
Qed.

Lemma code_inj (a b : ascii) : code a = code b -> a = b.
Proof.
  unfold code; intros H. apply N2Z.inj in H.
  rewrite <- (ascii_N_embedding a), <- (ascii_N_embedding b), H. reflexivity.
Qed.

(** On strings without a NUL character inside, [strcmp] is 0 exactly on
    equal strings. *)
Lemma strcmp_eq (s1 s2 : string) :
  nul_free s1 = true -> nul_free s2 = true ->
  strcmp s1 s2 = 0 -> s1 = s2.
Proof.
  revert s2; induction s1 as [|a s1 IH]; intros [|b s2]; simpl;
    intros H1 H2 H.
  - reflexivity.
  - apply andb_prop in H2. destruct H2 as [H2 _].
    apply negb_true_iff, Z.eqb_neq in H2. lia.
  - apply andb_prop in H1. destruct H1 as [H1 _].
    apply negb_true_iff, Z.eqb_neq in H1. lia.
  - apply andb_prop in H1. destruct H1 as [_ H1].
    apply andb_prop in H2. destruct H2 as [_ H2].
    destruct (code a =? code b) eqn:E.
    + apply Z.eqb_eq, code_inj in E. subst b. f_equal. apply IH; assumption.
    + apply Z.eqb_neq in E. lia.
Qed.

Lemma to_int_range (z : Z) : INT_MIN <= to_int z <= INT_MAX.
Proof.
  unfold INT_MIN, INT_MAX, to_int.
  pose proof (Z.mod_pos_bound (z + 2 ^ 31) (2 ^ 32) ltac:(lia)). lia.
Qed.

Lemma atoi_range (s : string) : INT_MIN <= atoi s <= INT_MAX.
Proof.
  unfold atoi. apply to_int_range.
Qed.

Lemma classify_well_typed (arg : string) :
  match classify arg with
  | Update f => forall l, well_typed l -> well_typed (f l)
  | TakeValue f => forall v l, well_typed l -> well_typed (f v l)
  | _ => True
  end.
Proof.
  unfold classify.
  repeat match goal with
         | |- context [strcmp arg ?f =? 0] => destruct (strcmp arg f =? 0)
         end;
    try exact I; unfold well_typed, to_uint8; simpl; intros;
    repeat match goal with
           | H : _ /\ _ |- _ => destruct H
           end;
    repeat split;
    try assumption;
    try apply atoi_range;
    try (apply Z.mod_pos_bound; lia);
    try tauto;
    unfold INT_MIN, INT_MAX; lia.
Qed.

(** Whatever the arguments, the locals the loop hands on are well typed. *)
Lemma main_loop_well_typed (n : nat) :
  forall args l l',
    (List.length args <= n)%nat ->
    well_typed l ->
    main_loop args l = Completed l' ->
    well_typed l'.
Proof.
  induction n as [|n IH]; intros args l l' Hlen Hl Hrun.
  - destruct args; [|simpl in Hlen; lia].
    simpl in Hrun. injection Hrun as <-. exact Hl.
  - destruct args as [|arg args].
    + simpl in Hrun. injection Hrun as <-. exact Hl.
    + simpl in Hlen. rewrite main_loop_cons in Hrun.
      pose proof (classify_well_typed arg) as Hstep.
      destruct (classify arg) as [|f|f|]; try discriminate.
      * apply (IH args (f l)); [lia | apply Hstep; exact Hl | exact Hrun].
      * destruct args as [|v args]; [discriminate|].
        simpl in Hlen.
        apply (IH args (f v l)); [lia | apply Hstep; exact Hl | exact Hrun].
Qed.

Lemma initial_well_typed : well_typed initial.
Proof.
  unfold well_typed, initial, INT_MIN, INT_MAX; simpl.
  repeat split; try lia; tauto.
Qed.

Example atoi_examples :
  atoi "4" = 4 /\ atoi " -12x" = -12 /\ atoi "+7" = 7
  /\ atoi "-h" = 0 /\ atoi "-mTPMS" = 0 /\ atoi "" = 0 /\ atoi "0300" = 300.
Proof. repeat split. Qed.

Example format_examples :
  fmt_02X 0x07 = "07" /\ fmt_02X 255 = "FF" /\ fmt_02X 256 = "100"
  /\ fmt_d 0 = "0" /\ fmt_d (-5) = "-5" /\ fmt_d 868 = "868".
Proof. repeat split. Qed.

Example run_example :
  main begin_ok ["-mTPMS"; "-freq"; "4"; "-addr"; "300"; "-channel"; "2"]
  = ([ RadioSetDebugLevel 1; StoreFreqSelect 4; StoreModeSelect 7;
       StoreChannelSelect 2; RadioBegin 44;
       Printf ("Applied profile mode=0x07 freq_sel=4 channel=2 addr=44" ++ nl);
       RadioShowRegisterSettings; RadioEnd ], 0).
Proof. reflexivity. Qed.

(** * Further properties of [main] *)

(** Induction over the arguments the way the loop walks them: one token at
    a time, or two when the first takes the second as its value. *)
Lemma args_ind2 (P : list string -> Prop) :
  P [] ->
  (forall arg rest,
      P rest -> (forall v rest', rest = v :: rest' -> P rest') -> P (arg :: rest)) ->
  forall args, P args.
Proof.
  intros Hnil Hcons args.
  assert (H : P args /\ forall v rest', args = v :: rest' -> P rest').
  { induction args as [|arg rest [IH1 IH2]].
    - split; [exact Hnil | discriminate].
    - split; [apply Hcons; assumption|].
      intros v rest' E. injection E as _ <-. exact IH1. }
  exact (proj1 H).
Qed.

(** ** How a run can go *)

Lemma early_return_shape (args : list string) :
  forall l out c,
    main_loop args l = Returned out c ->
    (out = usage /\ c = 0)
    \/ exists tok, In tok args /\ out = unknown_argument tok /\ c = 1.
Proof.
  induction args as [|arg rest IH1 IH2] using args_ind2; intros l out c H.
  - discriminate H.
  - rewrite main_loop_cons in H.
    assert (Hunk : Returned (unknown_argument arg) 1 = Returned out c ->
                   exists tok, In tok (arg :: rest)
                               /\ out = unknown_argument tok /\ c = 1).
    { intros E. injection E as <- <-. exists arg. simpl; auto. }
    destruct (classify arg) as [|f|f|].
    + injection H as <- <-. left; auto.
    + destruct (IH1 _ _ _ H) as [Hh|(tok & Hin & Ho)]; [left; exact Hh|].
      right. exists tok. split; [right; exact Hin | exact Ho].
    + destruct rest as [|v rest']; [right; apply Hunk; exact H|].
      destruct (IH2 v rest' eq_refl _ _ _ H) as [Hh|(tok & Hin & Ho)];
        [left; exact Hh|].
      right. exists tok. split; [right; right; exact Hin | exact Ho].
    + right; apply Hunk; exact H.
Qed.

(** X3. Every run of [main] has one of four shapes, whatever the arguments
    and the driver: the usage text alone with exit code 0; the unknown
    argument message for one of the tokens, the usage text and exit code 1;
    the stores, [begin], the failure line and exit code 2; or the stores,
    [begin], the "Applied profile" line, the register dump, [end] and exit
    code 0.  In particular the exit code is 0, 1 or 2, [begin] is called at
    most once and only after the three stores, and [end] only after a
    [begin] that did not answer FALSE. *)
Theorem main_run_shapes
    (radio_begin : driver_slots -> Z -> bool) (args : list string) :
  main radio_begin args = (usage, 0)
  \/ (exists tok, In tok args
        /\ main radio_begin args = (Printf ("Unknown argument: " ++ tok ++ nl) :: usage, 1))
  \/ (exists l, main_loop args initial = Completed l
        /\ radio_begin (slots_of l) (addr l) = false
        /\ main radio_begin args
           = ([ RadioSetDebugLevel 1; StoreFreqSelect (freq l);
                StoreModeSelect (mode l); StoreChannelSelect (channel l);
                RadioBegin (addr l);
                Printf ("Failed to init CC1101 (check wiring/SPI)." ++ nl) ], 2))
  \/ (exists l, main_loop args initial = Completed l
        /\ radio_begin (slots_of l) (addr l) = true
        /\ main radio_begin args
           = ([ RadioSetDebugLevel 1; StoreFreqSelect (freq l);
                StoreModeSelect (mode l); StoreChannelSelect (channel l);
                RadioBegin (addr l);
                Printf ("Applied profile mode=0x" ++ fmt_02X (mode l)
                        ++ " freq_sel=" ++ fmt_d (freq l)
                        ++ " channel=" ++ fmt_d (channel l)
                        ++ " addr=" ++ fmt_d (addr l) ++ nl);
                RadioShowRegisterSettings; RadioEnd ], 0)).
Proof.
  unfold main. destruct (main_loop args initial) as [out c|l] eqn:E.
  - destruct (early_return_shape _ _ _ _ E) as [[-> ->]|(tok & Hin & -> & ->)].
    + left. reflexivity.
    + right; left. exists tok. split; [exact Hin | reflexivity].
  - right; right. unfold apply_profile; cbv zeta.
    destruct (radio_begin (slots_of l) (addr l)) eqn:B.
    + right. exists l. split; [reflexivity | split; [exact B | reflexivity]].
    + left. exists l. split; [reflexivity | split; [exact B | reflexivity]].
Qed.

(** X1. Whatever the arguments and the driver, every value [main] hands to
    the driver fits its slot: the mode stored is one of 0x03, 0x06, 0x07,
    0x08, band and channel are in the [int] range, the address passed to
    [begin] is a byte and the debug level is 1.  No option can put another
    mode number into the driver. *)
Theorem driver_receives_typed_values
    (radio_begin : driver_slots -> Z -> bool) (args : list string) :
  Forall typed_event (fst (main radio_begin args)).
Proof.
  unfold main. destruct (main_loop args initial) as [out c|l] eqn:E.
  - destruct (early_return_shape _ _ _ _ E) as [[-> ->]|(tok & Hin & -> & ->)];
      simpl; repeat constructor.
  - pose proof (main_loop_well_typed _ _ _ _ (le_n _) initial_well_typed E)
      as (Ha & Hm & Hf & Hc).
    unfold apply_profile.
    destruct (radio_begin (slots_of l) (addr l)); simpl;
      repeat (apply Forall_cons; [first [assumption | reflexivity | exact I]|]);
      apply Forall_nil.
Qed.

(** ** Values that are not checked *)

(** X2. The numeric options do no range check.  For every [int] z, also
    outside 1..4 and also negative, -freq and -channel followed by the
    numeral of z set the band, or the channel, to z itself, and for every
    byte a, -addr followed by its numeral sets the address to a; the other
    locals stay.  Given as the only arguments, z is what [main] stores into
    the driver's band slot, or channel slot, and a is what it passes to
    [begin]. *)
Theorem numeric_options_pass_through
    (z a : Z) (rest : list string) (l : locals) :
  INT_MIN <= z <= INT_MAX ->
  0 <= a < 256 ->
  main_loop ("-freq" :: fmt_d z :: rest) l
    = main_loop rest {| addr := addr l; mode := mode l;
                        freq := z; channel := channel l |}
  /\ main_loop ("-channel" :: fmt_d z :: rest) l
    = main_loop rest {| addr := addr l; mode := mode l;
                        freq := freq l; channel := z |}
  /\ main_loop ("-addr" :: fmt_d a :: rest) l
    = main_loop rest {| addr := a; mode := mode l;
                        freq := freq l; channel := channel l |}
  /\ forall radio_begin,
       In (StoreFreqSelect z) (fst (main radio_begin ["-freq"; fmt_d z]))
       /\ In (StoreChannelSelect z) (fst (main radio_begin ["-channel"; fmt_d z]))
       /\ In (RadioBegin a) (fst (main radio_begin ["-addr"; fmt_d a])).
Proof.
  intros Hz Ha.
  assert (Ha' : INT_MIN <= a <= INT_MAX) by (unfold INT_MIN, INT_MAX; lia).
  assert (Hf : forall r l0, main_loop ("-freq" :: fmt_d z :: r) l0
                 = main_loop r {| addr := addr l0; mode := mode l0;
                                  freq := z; channel := channel l0 |}).
  { intros r l0.
    change (main_loop ("-freq" :: fmt_d z :: r) l0)
      with (main_loop r {| addr := addr l0; mode := mode l0;
                           freq := atoi (fmt_d z); channel := channel l0 |}).
    rewrite (atoi_fmt_d z Hz). reflexivity. }
  assert (Hc : forall r l0, main_loop ("-channel" :: fmt_d z :: r) l0
                 = main_loop r {| addr := addr l0; mode := mode l0;
                                  freq := freq l0; channel := z |}).
  { intros r l0.
    change (main_loop ("-channel" :: fmt_d z :: r) l0)
      with (main_loop r {| addr := addr l0; mode := mode l0;
                           freq := freq l0; channel := atoi (fmt_d z) |}).
    rewrite (atoi_fmt_d z Hz). reflexivity. }
  assert (Had : forall r l0, main_loop ("-addr" :: fmt_d a :: r) l0
                 = main_loop r {| addr := a; mode := mode l0;
                                  freq := freq l0; channel := channel l0 |}).
  { intros r l0.
    change (main_loop ("-addr" :: fmt_d a :: r) l0)
      with (main_loop r {| addr := to_uint8 (atoi (fmt_d a)); mode := mode l0;
                           freq := freq l0; channel := channel l0 |}).
    rewrite (atoi_fmt_d a Ha'). unfold to_uint8.
    rewrite Z.mod_small by exact Ha. reflexivity. }
  split; [apply Hf|]. split; [apply Hc|]. split; [apply Had|].
  intros radio_begin. unfold main. rewrite Hf, Hc, Had. cbn [main_loop].
  unfold apply_profile; cbv zeta.
  repeat split;
    match goal with
    | |- context [radio_begin ?sl ?ad] => destruct (radio_begin sl ad)
    end; simpl; tauto.
Qed.

Lemma numeric_options_pass_through_witness :
  INT_MIN <= -7 <= INT_MAX
  /\ 0 <= 255 < 256
  /\ main_loop ("-freq" :: "-7" :: ["-mOOK"]) initial
     = Completed {| addr := 1; mode := 0x06; freq := -7; channel := 0 |}
  /\ main_loop ("-channel" :: "-7" :: ["-mOOK"]) initial
     = Completed {| addr := 1; mode := 0x06; freq := 0x03; channel := -7 |}
  /\ main_loop ("-addr" :: "255" :: ["-mOOK"]) initial
     = Completed {| addr := 255; mode := 0x06; freq := 0x03; channel := 0 |}
  /\ In (StoreFreqSelect (-7)) (fst (main begin_fails ["-freq"; "-7"]))
  /\ In (StoreChannelSelect (-7)) (fst (main begin_fails ["-channel"; "-7"]))
  /\ In (RadioBegin 255) (fst (main begin_fails ["-addr"; "255"])).
Proof.
  assert (Hz : INT_MIN <= -7 <= INT_MAX) by (unfold INT_MIN, INT_MAX; lia).
  assert (Ha : 0 <= 255 < 256) by lia.
  split; [exact Hz|]. split; [exact Ha|].
  destruct (numeric_options_pass_through (-7) 255 ["-mOOK"] initial Hz Ha)
    as (Hf & Hc & Had & Hin).
  split; [exact Hf|]. split; [exact Hc|]. split; [exact Had|].
  exact (Hin begin_fails).
Defined.

(** ** Which argument lists the loop runs through *)

Lemma strcmp_eqb_eq (arg lit : string) :
  nul_free arg = true -> nul_free lit = true ->
  (strcmp arg lit =? 0) = true -> arg = lit.
Proof.
  intros Ha Hl H. apply Z.eqb_eq in H. apply strcmp_eq; assumption.
Qed.

(** A token the chain accepts is the token of an item. *)
Lemma classify_flag (arg : string) :
  nul_free arg = true ->
  match classify arg with
  | Update _ => exists f, tokens f = [arg]
  | TakeValue _ => forall v, exists f, tokens f = [arg; v]
  | _ => True
  end.
Proof.
  intros Hnul. unfold classify.
  repeat match goal with
         | |- context [strcmp arg ?f =? 0] =>
             let E := fresh "E" in
             destruct (strcmp arg f =? 0) eqn:E;
             [apply (strcmp_eqb_eq arg f Hnul eq_refl) in E; subst arg|]
         end;
    cbv beta iota; try exact I.
  - exists TPMS; reflexivity.
  - exists IoT; reflexivity.
  - exists GFSK100; reflexivity.
  - exists OOK; reflexivity.
  - intros v; exists (AddrOpt v); reflexivity.
  - intros v; exists (FreqOpt v); reflexivity.
  - intros v; exists (ChannelOpt v); reflexivity.
Qed.

Lemma completed_is_flags (args : list string) :
  forall l l',
    forallb nul_free args = true ->
    main_loop args l = Completed l' ->
    exists fs, args = flat_map tokens fs.
Proof.
  induction args as [|arg rest IH1 IH2] using args_ind2; intros l l' Hnul H.
  - exists []. reflexivity.
  - simpl in Hnul. apply andb_prop in Hnul. destruct Hnul as [Harg Hrest].
    rewrite main_loop_cons in H.
    pose proof (classify_flag arg Harg) as Hf.
    destruct (classify arg) as [|u|u|]; try discriminate.
    + destruct Hf as (f & Hf).
      destruct (IH1 _ _ Hrest H) as (fs & ->).
      exists (f :: fs). simpl. rewrite Hf. reflexivity.
    + destruct rest as [|v rest']; [discriminate|].
      destruct (Hf v) as (f & Hfv).
      simpl in Hrest. apply andb_prop in Hrest. destruct Hrest as [_ Hrest'].
      destruct (IH2 v rest' eq_refl _ _ Hrest' H) as (fs & ->).
      exists (f :: fs). simpl. rewrite Hfv. reflexivity.
Qed.

(** X4. The loop runs through an argument list, without returning from
    inside, exactly when the list is a sequence of well-formed items: each
    one a profile flag, or -addr, -freq or -channel followed by a token.
    Any other list ends in the usage text or the unknown-argument
    message. *)
Theorem loop_completes_iff_well_formed (args : list string) (l : locals) :
  forallb nul_free args = true ->
  (exists l', main_loop args l = Completed l')
  <-> exists fs, args = flat_map tokens fs.
Proof.
  intros Hnul. split.
  - intros (l' & H). exact (completed_is_flags args l l' Hnul H).
  - intros (fs & ->). destruct (main_loop_flags fs l) as (l' & H & _).
    exists l'. exact H.
Qed.

Lemma loop_completes_iff_well_formed_witness :
  forallb nul_free ["-mIoT"; "-addr"; "-h"; "-channel"; "9"] = true
  /\ ((exists l', main_loop ["-mIoT"; "-addr"; "-h"; "-channel"; "9"] initial
                  = Completed l')
      <-> exists fs, ["-mIoT"; "-addr"; "-h"; "-channel"; "9"] = flat_map tokens fs).
Proof.
  assert (Hnul : forallb nul_free ["-mIoT"; "-addr"; "-h"; "-channel"; "9"] = true)
    by reflexivity.
  split; [exact Hnul|].
  exact (loop_completes_iff_well_formed _ initial Hnul).
Defined.

(** ** What the flags leave alone *)

Lemma classify_frame (fld : field) (arg : string) :
  may_write fld arg = false ->
  match classify arg with
  | Update f => forall l, get fld (f l) = get fld l
  | TakeValue f => forall v l, get fld (f v l) = get fld l
  | _ => True
  end.
Proof.
  unfold classify, may_write. intros H.
  destruct fld;
    repeat match type of H with
           | _ || _ = false => apply orb_false_elim in H; destruct H as [H ?]
           end;
    repeat match goal with
           | E : (strcmp arg ?f =? 0) = false |- _ => rewrite E; clear E
           end;
    repeat match goal with
           | |- context [strcmp arg ?f =? 0] => destruct (strcmp arg f =? 0)
           end;
    try exact I; intros; reflexivity.
Qed.

(** X5. A local changes only through the flags that assign to it.  When the
    loop runs through the arguments and none of the tokens is a flag whose
    branch writes the field, the field ends with the value it started with:
    the address needs -addr, the channel -channel, the mode a profile flag,
    the band -freq, -mTPMS or -mIoT. *)
Theorem unwritten_field_keeps_value (fld : field) (args : list string) :
  forall l l',
    existsb (may_write fld) args = false ->
    main_loop args l = Completed l' ->
    get fld l' = get fld l.
Proof.
  induction args as [|arg rest IH1 IH2] using args_ind2; intros l l' Hno H.
  - simpl in H. injection H as <-. reflexivity.
  - simpl in Hno. apply orb_false_elim in Hno. destruct Hno as [Harg Hrest].
    rewrite main_loop_cons in H.
    pose proof (classify_frame fld arg Harg) as Hf.
    destruct (classify arg) as [|u|u|]; try discriminate.
    + rewrite (IH1 _ _ Hrest H). apply Hf.
    + destruct rest as [|v rest']; [discriminate|].
      simpl in Hrest. apply orb_false_elim in Hrest. destruct Hrest as [_ Hrest'].
      rewrite (IH2 v rest' eq_refl _ _ Hrest' H). apply Hf.
Qed.

Lemma unwritten_field_keeps_value_witness :
  existsb (may_write FFreq) ["-mOOK"; "-addr"; "7"; "-channel"; "2"] = false
  /\ main_loop ["-mOOK"; "-addr"; "7"; "-channel"; "2"] initial
     = Completed {| addr := 7; mode := 0x06; freq := 0x03; channel := 2 |}
  /\ get FFreq {| addr := 7; mode := 0x06; freq := 0x03; channel := 2 |}
     = get FFreq initial.
Proof.
  assert (Hno : existsb (may_write FFreq)
                  ["-mOOK"; "-addr"; "7"; "-channel"; "2"] = false) by reflexivity.
  assert (Hrun : main_loop ["-mOOK"; "-addr"; "7"; "-channel"; "2"] initial
                 = Completed {| addr := 7; mode := 0x06; freq := 0x03; channel := 2 |})
    by reflexivity.
  split; [exact Hno|]. split; [exact Hrun|].
  exact (unwritten_field_keeps_value FFreq _ _ _ Hno Hrun).
Defined.

(** ** Reordering and repeating items *)

Lemma locals_ext (l1 l2 : locals) :
  (forall fld, get fld l1 = get fld l2) -> l1 = l2.
Proof.
  intros H. destruct l1, l2.
  pose proof (H FAddr); pose proof (H FMode);
    pose proof (H FFreq); pose proof (H FChannel).
  simpl in *. congruence.
Qed.

(** Two item sequences that leave every field with the same value give the
    same run of the loop. *)
Lemma main_loop_flags_ext (fs1 fs2 : list flag) (l : locals) :
  (forall fld, fold_left (overwrite fld) fs1 (get fld l)
               = fold_left (overwrite fld) fs2 (get fld l)) ->
  main_loop (flat_map tokens fs1) l = main_loop (flat_map tokens fs2) l.
Proof.
  intros H.
  destruct (main_loop_flags fs1 l) as (l1 & H1 & G1).
  destruct (main_loop_flags fs2 l) as (l2 & H2 & G2).
  rewrite H1, H2. f_equal. apply locals_ext.
  intros fld. rewrite G1, G2. apply H.
Qed.

(** X6. Two neighbouring items that write no field in common can change
    places: the loop ends with the same locals.  So -addr, -channel and a
    profile flag can be given in any order, while -freq and -mTPMS or -mIoT
    cannot. *)
Theorem independent_flags_commute
    (before after : list flag) (f g : flag) (l : locals) :
  (forall fld, writes fld f = None \/ writes fld g = None) ->
  main_loop (flat_map tokens (before ++ f :: g :: after)) l
  = main_loop (flat_map tokens (before ++ g :: f :: after)) l.
Proof.
  intros Hind. apply main_loop_flags_ext. intros fld.
  rewrite !fold_left_app. simpl. f_equal.
  unfold overwrite. destruct (Hind fld) as [E|E]; rewrite E;
    [destruct (writes fld g) | destruct (writes fld f)]; reflexivity.
Qed.

Lemma independent_flags_commute_witness :
  (forall fld, writes fld (AddrOpt "9") = None \/ writes fld TPMS = None)
  /\ main_loop ["-channel"; "2"; "-addr"; "9"; "-mTPMS"; "-mOOK"] initial
     = main_loop ["-channel"; "2"; "-mTPMS"; "-addr"; "9"; "-mOOK"] initial.
Proof.
  assert (Hind : forall fld,
             writes fld (AddrOpt "9") = None \/ writes fld TPMS = None)
    by (intros []; [right | left | left | left]; reflexivity).
  split; [exact Hind|].
  exact (independent_flags_commute [ChannelOpt "2"] [OOK]
           (AddrOpt "9") TPMS initial Hind).
Defined.

(** Over a sequence of items a field is either never written, or ends with
    a value that does not depend on the one it started with. *)
Lemma fold_overwrite_cases (fld : field) (fs : list flag) :
  (forall x, fold_left (overwrite fld) fs x = x)
  \/ exists c, forall x, fold_left (overwrite fld) fs x = c.
Proof.
  induction fs as [|f fs IH]; simpl.
  - left. reflexivity.
  - unfold overwrite at 2 4. destruct (writes fld f) as [v|].
    + right. exists (fold_left (overwrite fld) fs v). reflexivity.
    + exact IH.
Qed.

(** X7. Giving a sequence of items twice in a row is the same as giving it
    once: the loop ends with the same locals. *)
Theorem repeated_flags_idempotent (fs : list flag) (l : locals) :
  main_loop (flat_map tokens (fs ++ fs)) l = main_loop (flat_map tokens fs) l.
Proof.
  apply main_loop_flags_ext. intros fld.
  rewrite fold_left_app.
  destruct (fold_overwrite_cases fld fs) as [H|(c & H)].
  - rewrite !H. reflexivity.
  - rewrite (H (fold_left (overwrite fld) fs (get fld l))), (H (get fld l)).
    reflexivity.
Qed.

(** ** Returns from inside the loop *)

(** X8. Whether the loop returns from inside, with which exit code and
    with which output, depends on the arguments alone and not on the
    values the locals have: the usage text and the unknown-argument message
    never show anything of the configuration. *)
Theorem early_return_ignores_locals (args : list string) :
  forall (l l2 : locals) (out : list event) (c : Z),
    main_loop args l = Returned out c ->
    main_loop args l2 = Returned out c.
Proof.
  induction args as [|arg rest IH1 IH2] using args_ind2; intros l l2 out c H.
  - discriminate H.
  - rewrite main_loop_cons in H |- *.
    destruct (classify arg) as [|u|u|]; try exact H.
    + exact (IH1 _ _ _ _ H).
    + destruct rest as [|v rest']; [exact H|].
      exact (IH2 v rest' eq_refl _ _ _ _ H).
Qed.

Lemma early_return_ignores_locals_witness :
  main_loop ["-mTPMS"; "-freq"] initial
    = Returned (unknown_argument "-freq") 1
  /\ main_loop ["-mTPMS"; "-freq"]
       {| addr := 200; mode := 0x08; freq := 4; channel := 5 |}
     = Returned (unknown_argument "-freq") 1.
Proof.
  assert (H : main_loop ["-mTPMS"; "-freq"] initial
              = Returned (unknown_argument "-freq") 1) by reflexivity.
  split; [exact H|].
  exact (early_return_ignores_locals _ initial
           {| addr := 200; mode := 0x08; freq := 4; channel := 5 |} _ _ H).
Defined.

Lemma classify_take_value (arg : string) :
  match classify arg with
  | TakeValue _ => is_value_flag arg = true
  | _ => True
  end.
Proof.
  unfold classify, is_value_flag, value_flags; simpl.
  repeat match goal with
         | |- context [if strcmp arg ?f =? 0 then _ else _] =>
             destruct (strcmp arg f =? 0) eqn:?
         end;
    try exact I;
    repeat match goal with
           | E : (strcmp arg _ =? 0) = _ |- _ => rewrite ?E; clear E
           end;
    reflexivity.
Qed.

(** X9. A return from inside the loop is final: with more arguments
    appended the loop returns in the same way.  The one exception is a
    value flag at the very end, whose missing value the first appended
    token then supplies. *)
Theorem early_return_stable (pre : list string) :
  forall (l : locals) (out : list event) (c : Z),
    main_loop pre l = Returned out c ->
    (forall rest, main_loop (pre ++ rest) l = Returned out c)
    \/ exists p f, pre = (p ++ [f])%list
                   /\ is_value_flag f = true
                   /\ out = unknown_argument f /\ c = 1.
Proof.
  induction pre as [|arg pre IH1 IH2] using args_ind2; intros l out c H.
  - discriminate H.
  - rewrite main_loop_cons in H.
    pose proof (classify_take_value arg) as Hv.
    destruct (classify arg) as [|u|u|] eqn:Ec.
    + left. intros rest. rewrite <- app_comm_cons, main_loop_cons, Ec. exact H.
    + destruct (IH1 _ _ _ H) as [Hs|(p & f & -> & Hf & Ho)].
      * left. intros rest. rewrite <- app_comm_cons, main_loop_cons, Ec. apply Hs.
      * right. exists (arg :: p), f. split; [reflexivity | split; assumption].
    + destruct pre as [|v pre'].
      * right. injection H as <- <-. exists [], arg.
        split; [reflexivity | split; [exact Hv | split; reflexivity]].
      * destruct (IH2 v pre' eq_refl _ _ _ H) as [Hs|(p & f & E & Hf & Ho)].
        -- left. intros rest.
           rewrite <- !app_comm_cons, main_loop_cons, Ec. apply Hs.
        -- right. exists (arg :: v :: p), f. rewrite E.
           split; [reflexivity | split; assumption].
    + left. intros rest. rewrite <- app_comm_cons, main_loop_cons, Ec. exact H.
Qed.

Lemma early_return_stable_witness :
  main_loop ["-addr"; "3"; "-bogus"] initial
    = Returned (unknown_argument "-bogus") 1
  /\ ((forall rest, main_loop (["-addr"; "3"; "-bogus"] ++ rest) initial
                    = Returned (unknown_argument "-bogus") 1)
      \/ exists p f, ["-addr"; "3"; "-bogus"] = (p ++ [f])%list
                     /\ is_value_flag f = true
                     /\ unknown_argument "-bogus" = unknown_argument f /\ 1 = 1).
Proof.
  assert (H : main_loop ["-addr"; "3"; "-bogus"] initial
              = Returned (unknown_argument "-bogus") 1) by reflexivity.
  split; [exact H|].
  exact (early_return_stable _ initial _ _ H).
Defined.

(** ** The line printed on success *)

(** X10. Whatever arguments the loop has run through, the mode field of the
    "Applied profile" line is one of the two-character texts 03, 06, 07 and
    08: the zero padding of [%02X] always applies and no letter digit is
    ever printed. *)
Theorem applied_mode_text (args : list string) (l : locals) :
  main_loop args initial = Completed l ->
  In (fmt_02X (mode l)) ["03"; "06"; "07"; "08"].
Proof.
  intros H.
  pose proof (main_loop_well_typed _ _ _ _ (le_n _) initial_well_typed H)
    as (_ & Hm & _).
  simpl in Hm. destruct Hm as [<-|[<-|[<-|[<-|[]]]]]; simpl; tauto.
Qed.

Lemma applied_mode_text_witness :
  main_loop ["-mOOK"; "-freq"; "255"; "-mIoT"] initial
    = Completed {| addr := 1; mode := 0x08; freq := 0x03; channel := 0 |}
  /\ In (fmt_02X 0x08) ["03"; "06"; "07"; "08"].
Proof.
  assert (H : main_loop ["-mOOK"; "-freq"; "255"; "-mIoT"] initial
              = Completed {| addr := 1; mode := 0x08; freq := 0x03; channel := 0 |})
    by reflexivity.
  split; [exact H|].
  exact (applied_mode_text _ _ H).
Defined.
